(** * scripts/merge_tasks.py: merging two task files

    The script reads [tasks/tasks.json] and [tasks/tasks.json.new], builds a
    dict of the existing tasks keyed by [id], rebuilds every new task with the
    [status] and [subtasks] of the existing task of the same [id], and writes
    the result to [tasks/tasks.json.merged].

    The embedding follows the script statement by statement.  Python values
    are the values [json.load] yields; a Python exception is an [Err] of the
    [result] type; the dict comprehension is a [gmap] from hashable keys; the
    files and the console are a [world] threaded through a small state and
    error monad. *)

From stdpp Require Import gmap strings list fin_maps.
From Stdlib Require Import ZArith.

Local Open Scope string_scope.
Local Open Scope list_scope.

Set Warnings "-register-all".

(** ** Values *)

(** What [json.load] returns.  A JSON number is modelled when it is an integer
    (a Python [int]); documents with fractional literals are not covered.  An
    object is a Python [dict]: its items in insertion order, with pairwise
    distinct keys. *)
Inductive json : Type :=
| JNull
| JBool (b : bool)
| JNum (n : Z)
| JStr (s : string)
| JArr (l : list json)
| JObj (d : list (string * json)).

Abbreviation dict := (list (string * json)).

(** The exceptions the script can raise. *)
Inductive exn : Type :=
| KeyError (k : string)
| TypeError
| AttributeError
| FileNotFoundError (path : string)
| JSONDecodeError.

Inductive result (A : Type) : Type :=
| Ok (a : A)
| Err (e : exn).
Arguments Ok {A} a.
Arguments Err {A} e.

Definition bind {A B} (r : result A) (k : A -> result B) : result B :=
  match r with
  | Ok a => k a
  | Err e => Err e
  end.

Notation "'let*' x ':=' r 'in' k" := (bind r (fun x => k))
  (at level 10, x name, r at level 100, k at level 200).

(** ** Dicts with string keys *)

(** [d.get(k)] as an option. *)
Fixpoint dict_get (k : string) (d : dict) : option json :=
  match d with
  | [] => None
  | (k', v) :: d' => if decide (k' = k) then Some v else dict_get k d'
  end.

(** [d[k] = v]: an existing key keeps its place, a new key goes last. *)
Fixpoint dict_set (k : string) (v : json) (d : dict) : dict :=
  match d with
  | [] => [(k, v)]
  | (k', v') :: d' =>
      if decide (k' = k) then (k', v) :: d' else (k', v') :: dict_set k v d'
  end.

(** ** The operations of Python the script uses *)

(** [o[k]] with a string [k]. *)
Definition py_getitem (o : json) (k : string) : result json :=
  match o with
  | JObj d =>
      match dict_get k d with
      | Some v => Ok v
      | None => Err (KeyError k)
      end
  | _ => Err TypeError
  end.

(** The attribute [o.get]: only a dict has it. *)
Definition py_get_method (o : json) : result dict :=
  match o with
  | JObj d => Ok d
  | _ => Err AttributeError
  end.

(** [d.get(k, dflt)] once [dflt] is evaluated. *)
Definition dict_get_default (d : dict) (k : string) (dflt : json) : json :=
  default dflt (dict_get k d).

(** [**o] inside a dict display: [o] must be a mapping. *)
Definition py_unpack (o : json) : result dict :=
  match o with
  | JObj d => Ok d
  | _ => Err TypeError
  end.

(** [for x in o]: a list yields its elements, a dict its keys, a string its
    characters (one-character strings, here one per byte); anything else is
    not iterable.  The script subscripts what it iterates with ['id'], which
    no string supports, so only the emptiness of a string matters. *)
Definition py_iter (o : json) : result (list json) :=
  match o with
  | JArr l => Ok l
  | JObj d => Ok (map (fun kv => JStr (fst kv)) d)
  | JStr s => Ok (map (fun c => JStr (String c EmptyString)) (String.list_ascii_of_string s))
  | _ => Err TypeError
  end.

(** Dict keys.  Python compares keys with [==] and [True == 1], [False == 0],
    so a boolean and the integer it equals are one key; [None], integers and
    strings are otherwise distinct.  Lists and dicts are unhashable. *)
Inductive pykey : Type :=
| KNone
| KInt (n : Z)
| KStr (s : string).

#[global] Instance pykey_eq_dec : EqDecision pykey.
Proof. solve_decision. Defined.

#[global] Instance pykey_countable : Countable pykey.
Proof.
  refine (inj_countable'
    (fun k => match k with
              | KNone => inl (inl tt)
              | KInt n => inl (inr n)
              | KStr s => inr s
              end)
    (fun x => match x with
              | inl (inl _) => KNone
              | inl (inr n) => KInt n
              | inr s => KStr s
              end) _).
  by intros [].
Defined.

Definition py_hash (v : json) : result pykey :=
  match v with
  | JNull => Ok KNone
  | JBool b => Ok (KInt (Z.b2z b))
  | JNum n => Ok (KInt n)
  | JStr s => Ok (KStr s)
  | JArr _ | JObj _ => Err TypeError
  end.

(** ** The script *)

(** One step of [{task['id']: task for task in ...}]: the key is evaluated,
    then hashed on insertion; a later task replaces an earlier one. *)
Definition map_add (m : gmap pykey json) (task : json) : result (gmap pykey json) :=
  let* id := py_getitem task "id" in
  let* k := py_hash id in
  Ok (<[k := task]> m).

Fixpoint dict_comp (m : gmap pykey json) (tasks : list json) : result (gmap pykey json) :=
  match tasks with
  | [] => Ok m
  | task :: rest => let* m' := map_add m task in dict_comp m' rest
  end.

(** [c['tasks']], iterated. *)
Definition tasks_of (c : json) : result (list json) :=
  let* ts := py_getitem c "tasks" in
  py_iter ts.

(** Line 13. *)
Definition existing_tasks_map (existing_tasks : json) : result (gmap pykey json) :=
  let* l := tasks_of existing_tasks in
  dict_comp ∅ l.

(** [existing_tasks_map.get(key, {})]. *)
Definition map_get (m : gmap pykey json) (key : json) : result json :=
  let* k := py_hash key in
  Ok (default (JObj []) (m !! k)).

(** Lines 18-22: the dict display built for one [new_task], in evaluation
    order. *)
Definition merged_task (m : gmap pykey json) (new_task : json) : result json :=
  let* d := py_unpack new_task in
  let* id := py_getitem new_task "id" in
  let* old := map_get m id in
  let* old_d := py_get_method old in
  let* new_status := py_getitem new_task "status" in
  let status := dict_get_default old_d "status" new_status in
  let* id' := py_getitem new_task "id" in
  let* old' := map_get m id' in
  let* old_d' := py_get_method old' in
  let* new_d := py_get_method new_task in
  let new_subtasks := dict_get_default new_d "subtasks" (JArr []) in
  let subtasks := dict_get_default old_d' "subtasks" new_subtasks in
  Ok (JObj (dict_set "subtasks" subtasks (dict_set "status" status d))).

(** The list comprehension: the first exception aborts it. *)
Fixpoint list_comp (m : gmap pykey json) (tasks : list json) : result (list json) :=
  match tasks with
  | [] => Ok []
  | new_task :: rest =>
      let* t := merged_task m new_task in
      let* ts := list_comp m rest in
      Ok (t :: ts)
  end.

(** Lines 16-25. *)
Definition merged_tasks (m : gmap pykey json) (new_tasks : json) : result json :=
  let* l := tasks_of new_tasks in
  let* out := list_comp m l in
  Ok (JObj [("tasks", JArr out)]).

(** Lines 13-25: the spec's [merge(old, new)]. *)
Definition merge (existing_tasks new_tasks : json) : result json :=
  let* m := existing_tasks_map existing_tasks in
  merged_tasks m new_tasks.

(** A collection with only its [tasks]. *)
Definition collection (ts : list json) : json := JObj [("tasks", JArr ts)].

(** ** Files and console *)

(** What a file holds: a JSON document, or text [json.load] rejects. *)
Inductive file : Type :=
| Json (v : json)
| Malformed.

Record world : Type := World {
  files : gmap string file;
  stdout : list string
}.

Definition io (A : Type) : Type := world -> world * result A.

Definition io_bind {A B} (c : io A) (k : A -> io B) : io B :=
  fun w =>
    match c w with
    | (w', Ok a) => k a w'
    | (w', Err e) => (w', Err e)
    end.

Notation "'do' x '<-' c ';' k" := (io_bind c (fun x => k))
  (at level 10, x name, c at level 100, k at level 200).

Definition lift {A} (r : result A) : io A := fun w => (w, r).

(** [with open(path, 'r') as f: json.load(f)]. *)
Definition load (path : string) : io json :=
  fun w =>
    match files w !! path with
    | None => (w, Err (FileNotFoundError path))
    | Some Malformed => (w, Err JSONDecodeError)
    | Some (Json v) => (w, Ok v)
    end.

(** [with open(path, 'w') as f: json.dump(v, f, indent=2)]. *)
Definition dump (v : json) (path : string) : io unit :=
  fun w => (World (<[path := Json v]> (files w)) (stdout w), Ok tt).

Definition print (s : string) : io unit :=
  fun w => (World (files w) (stdout w ++ [s]), Ok tt).

Definition script : io unit :=
  do existing_tasks <- load "tasks/tasks.json";
  do new_tasks <- load "tasks/tasks.json.new";
  do existing_tasks_map <- lift (existing_tasks_map existing_tasks);
  do merged_tasks <- lift (merged_tasks existing_tasks_map new_tasks);
  do _ <- dump merged_tasks "tasks/tasks.json.merged";
  print "Tasks merged successfully!".

(** ** The spec's example *)

Definition example_old_1 : json :=
  JObj [("id", JNum 1); ("status", JStr "done");
        ("subtasks", JArr [JObj [("id", JStr "1.1")]])].

Definition example_old_2 : json :=
  JObj [("id", JNum 2); ("status", JStr "pending")].

Definition example_new_1 : json :=
  JObj [("id", JNum 1); ("status", JStr "pending"); ("title", JStr "A")].

Definition example_new_3 : json :=
  JObj [("id", JNum 3); ("status", JStr "pending"); ("title", JStr "C")].

Definition example_old : json := collection [example_old_1; example_old_2].

Definition example_new : json := collection [example_new_1; example_new_3].

Definition example_merged_1 : json :=
  JObj [("id", JNum 1); ("status", JStr "done"); ("title", JStr "A");
        ("subtasks", JArr [JObj [("id", JStr "1.1")]])].

Definition example_merged_3 : json :=
  JObj [("id", JNum 3); ("status", JStr "pending"); ("title", JStr "C");
        ("subtasks", JArr [])].

Definition example_merged : json :=
  collection [example_merged_1; example_merged_3].

(** ** Further inputs *)

(** An old task without [subtasks] facing a new task that has some. *)
Definition bare_old_1 : json :=
  JObj [("id", JNum 1); ("status", JStr "done")].

Definition rich_new_1 : json :=
  JObj [("id", JNum 1); ("status", JStr "pending");
        ("subtasks", JArr [JObj [("id", JStr "1.1")]])].

Definition rich_merged_1 : json :=
  JObj [("id", JNum 1); ("status", JStr "done");
        ("subtasks", JArr [JObj [("id", JStr "1.1")]])].

(** Two tasks under one [id]. *)
Definition twin_a : json := JObj [("id", JNum 1); ("status", JStr "a")].
Definition twin_b : json := JObj [("id", JNum 1); ("status", JStr "b")].

Definition twin_a_merged : json :=
  JObj [("id", JNum 1); ("status", JStr "a"); ("subtasks", JArr [])].
Definition twin_b_merged : json :=
  JObj [("id", JNum 1); ("status", JStr "b"); ("subtasks", JArr [])].

(** A new task with an [id] and no [status], a task with no [id]. *)
Definition statusless_new_1 : json := JObj [("id", JNum 1); ("title", JStr "A")].
Definition nameless_task : json := JObj [("status", JStr "pending"); ("title", JStr "B")].

(** The two input files and an empty console. *)
Definition world_of (old new : json) : world :=
  World (<["tasks/tasks.json" := Json old]>
           (<["tasks/tasks.json.new" := Json new]> ∅)) [].

(** The example's files after a run of the script. *)
Definition example_world_after : world :=
  World (<["tasks/tasks.json.merged" := Json example_merged]>
           (files (world_of example_old example_new)))
        ["Tasks merged successfully!"].

(** ** Vocabulary of the statements *)

(** The key under which a task is filed or looked up: its [id], hashed.  None
    when the entry is not a dict, has no [id] or has an unhashable one. *)
Definition task_key (t : json) : option pykey :=
  match py_getitem t "id" with
  | Ok id =>
      match py_hash id with
      | Ok k => Some k
      | Err _ => None
      end
  | Err _ => None
  end.

(** A field of an entry, None when the entry is not a dict or lacks it. *)
Definition field (f : string) (t : json) : option json :=
  match t with
  | JObj d => dict_get f d
  | _ => None
  end.

Definition is_dict (t : json) : bool :=
  match t with
  | JObj _ => true
  | _ => false
  end.

Definition hashable (v : json) : bool :=
  match v with
  | JArr _ | JObj _ => false
  | _ => true
  end.

(** An entry shaped as the data model has it, the [id] possibly missing: a
    dict whose [id], when there is one, is a scalar. *)
Definition entry_shaped (t : json) : bool :=
  is_dict t && from_option hashable true (field "id" t).

(** An entry that is a dict without the field [f]. *)
Definition lacks (f : string) (t : json) : Prop :=
  is_dict t ∧ field f t = None.

(** What [existing_tasks_map.get(id, {})] returns is a dict. *)
Definition dict_valued (m : gmap pykey json) : Prop :=
  ∀ k v, m !! k = Some v → is_dict v.

(** A task with [subtasks] set to the empty sequence when it has none. *)
Definition with_subtasks (t : json) : json :=
  match t with
  | JObj d => JObj (dict_set "subtasks" (default (JArr []) (dict_get "subtasks" d)) d)
  | _ => t
  end.

(** The names of the fields of an entry, in order. *)
Definition field_names (t : json) : list string :=
  match t with
  | JObj d => d.*1
  | _ => []
  end.

(** A [tasks] value the two loops can run over without meeting an element:
    an array, or an object or a string with nothing in it. *)
Definition iterable_tasks (ts : json) : bool :=
  match ts with
  | JArr _ => true
  | JObj [] => true
  | JStr EmptyString => true
  | _ => false
  end.

(** * Properties *)

(** ** Dicts *)

Lemma dict_get_set_eq k v d : dict_get k (dict_set k v d) = Some v.
Proof.
  induction d as [|[k' v'] d IH]; simpl.
  - by rewrite decide_True.
  - destruct (decide (k' = k)) as [->|Hne]; simpl.
    + by rewrite decide_True.
    + by rewrite decide_False.
Qed.

Lemma dict_get_set_ne k k' v d :
  k ≠ k' → dict_get k' (dict_set k v d) = dict_get k' d.
Proof.
  intros Hne. induction d as [|[k0 v0] d IH]; simpl.
  - by rewrite decide_False.
  - destruct (decide (k0 = k)) as [->|Hk0]; simpl.
    + by rewrite !decide_False.
    + by rewrite IH.
Qed.

Lemma dict_set_id k v d : dict_get k d = Some v → dict_set k v d = d.
Proof.
  induction d as [|[k' v'] d IH]; simpl; [done|].
  destruct (decide (k' = k)); [congruence|].
  intros H. by rewrite IH.
Qed.

Lemma dict_set_fresh k v d : dict_get k d = None → dict_set k v d = d ++ [(k, v)].
Proof.
  induction d as [|[k' v'] d IH]; simpl; [done|].
  destruct (decide (k' = k)); [done|].
  intros H. by rewrite IH.
Qed.

(** ** One merged task *)

(** The success case of the dict display, in closed form. *)
Lemma merged_task_ok m nd id k od ns :
  dict_get "id" nd = Some id →
  py_hash id = Ok k →
  default (JObj []) (m !! k) = JObj od →
  dict_get "status" nd = Some ns →
  merged_task m (JObj nd) =
    Ok (JObj (dict_set "subtasks"
                (default (default (JArr []) (dict_get "subtasks" nd))
                         (dict_get "subtasks" od))
                (dict_set "status" (default ns (dict_get "status" od)) nd))).
Proof.
  intros Hid Hk Hod Hns.
  unfold merged_task, map_get, dict_get_default; simpl.
  rewrite Hid; simpl. rewrite Hk; simpl. rewrite Hod; simpl.
  by rewrite Hns.
Qed.

(** Whatever succeeds went through that case. *)
Lemma merged_task_inv m nt mt :
  merged_task m nt = Ok mt →
  ∃ nd id k od ns,
    nt = JObj nd ∧ dict_get "id" nd = Some id ∧ py_hash id = Ok k ∧
    default (JObj []) (m !! k) = JObj od ∧ dict_get "status" nd = Some ns ∧
    mt = JObj (dict_set "subtasks"
                 (default (default (JArr []) (dict_get "subtasks" nd))
                          (dict_get "subtasks" od))
                 (dict_set "status" (default ns (dict_get "status" od)) nd)).
Proof.
  destruct nt as [| | | | |nd]; try discriminate.
  unfold merged_task, map_get; simpl.
  destruct (dict_get "id" nd) as [id|] eqn:Hid; [simpl|discriminate].
  destruct (py_hash id) as [k|] eqn:Hk; [simpl|discriminate].
  destruct (default (JObj []) (m !! k)) as [| | | | |od] eqn:Hod; try discriminate.
  simpl.
  destruct (dict_get "status" nd) as [ns|] eqn:Hns; [simpl|discriminate].
  intros [= <-]. by exists nd, id, k, od, ns.
Qed.

Lemma task_key_obj d id k :
  dict_get "id" d = Some id → py_hash id = Ok k → task_key (JObj d) = Some k.
Proof. intros Hid Hk. unfold task_key; simpl. by rewrite Hid, Hk. Qed.

Lemma task_key_inv t k :
  task_key t = Some k →
  ∃ d id, t = JObj d ∧ dict_get "id" d = Some id ∧ py_hash id = Ok k.
Proof.
  unfold task_key. destruct t as [| | | | |d]; try discriminate. simpl.
  destruct (dict_get "id" d) as [id|] eqn:Hid; [|discriminate].
  destruct (py_hash id) as [k'|] eqn:Hk; [|discriminate].
  intros [= <-]. by exists d, id.
Qed.

(** A merged task keeps the [id] of the new task. *)
Lemma merged_task_id m nt mt :
  merged_task m nt = Ok mt →
  py_getitem mt "id" = py_getitem nt "id" ∧ task_key mt = task_key nt ∧
  is_Some (task_key nt).
Proof.
  intros (nd & id & k & od & ns & -> & Hid & Hk & _ & _ & ->)%merged_task_inv.
  assert (Hget : ∀ s u, dict_get "id" (dict_set "subtasks" s (dict_set "status" u nd))
                        = dict_get "id" nd).
  { intros s u. by rewrite !dict_get_set_ne. }
  unfold task_key; simpl. rewrite Hget, Hid, Hk. eauto.
Qed.

(** ** The dict of existing tasks *)

Lemma map_add_ok m t k : task_key t = Some k → map_add m t = Ok (<[k := t]> m).
Proof.
  intros (d & id & -> & Hid & Hk)%task_key_inv.
  unfold map_add; simpl. rewrite Hid; simpl. by rewrite Hk.
Qed.

Lemma map_add_inv m t m' :
  map_add m t = Ok m' → ∃ k, task_key t = Some k ∧ m' = <[k := t]> m.
Proof.
  unfold map_add, task_key.
  destruct (py_getitem t "id") as [id|]; [simpl|discriminate].
  destruct (py_hash id) as [k|]; [simpl|discriminate].
  intros [= <-]. by exists k.
Qed.

Lemma dict_comp_app m l1 l2 :
  dict_comp m (l1 ++ l2) = let* m' := dict_comp m l1 in dict_comp m' l2.
Proof.
  revert m. induction l1 as [|t l1 IH]; intros m; simpl; [done|].
  destruct (map_add m t) as [m1|]; simpl; [apply IH|done].
Qed.

(** Tasks filed under other keys leave a key's entry alone. *)
Lemma dict_comp_skip m l m' k :
  dict_comp m l = Ok m' →
  Forall (λ t, task_key t ≠ Some k) l →
  m' !! k = m !! k.
Proof.
  revert m. induction l as [|t l IH]; intros m; simpl.
  - by intros [= <-].
  - destruct (map_add m t) as [m1|] eqn:Hadd; [simpl|discriminate].
    apply map_add_inv in Hadd as (k' & Hk' & ->).
    intros Hrest [Hne Hl]%Forall_cons.
    rewrite (IH _ Hrest Hl). apply lookup_insert_ne. congruence.
Qed.

(** The last task with a given key is the one the dict holds. *)
Lemma dict_comp_last m l1 t l2 m' k :
  dict_comp m (l1 ++ t :: l2) = Ok m' →
  task_key t = Some k →
  Forall (λ t', task_key t' ≠ Some k) l2 →
  m' !! k = Some t.
Proof.
  rewrite dict_comp_app.
  destruct (dict_comp m l1) as [m1|]; [simpl|discriminate].
  intros Hcomp Hk Hl2. rewrite (map_add_ok _ _ _ Hk) in Hcomp; simpl in Hcomp.
  rewrite (dict_comp_skip _ _ _ _ Hcomp Hl2). apply lookup_insert_eq.
Qed.

(** Every task filed has a key, and every entry of the dict is a task that
    was filed under its own key. *)
Lemma dict_comp_keys m l m' :
  dict_comp m l = Ok m' → Forall (λ t, is_Some (task_key t)) l.
Proof.
  revert m. induction l as [|t l IH]; intros m; simpl; [by constructor|].
  destruct (map_add m t) as [m1|] eqn:Hadd; [simpl|discriminate].
  apply map_add_inv in Hadd as (k & Hk & ->).
  intros Hrest. constructor; eauto.
Qed.

Lemma dict_comp_entries m l m' k v :
  dict_comp m l = Ok m' →
  m' !! k = Some v →
  m !! k = Some v ∨ (v ∈ l ∧ task_key v = Some k).
Proof.
  revert m. induction l as [|t l IH]; intros m; simpl.
  - intros [= <-]. by left.
  - destruct (map_add m t) as [m1|] eqn:Hadd; [simpl|discriminate].
    apply map_add_inv in Hadd as (k' & Hk' & ->).
    intros Hrest Hv. destruct (IH _ Hrest Hv) as [Hin|[Hin Hkey]].
    + destruct (decide (k' = k)) as [->|Hne].
      * rewrite lookup_insert_eq in Hin. injection Hin as <-.
        right. split; [left|done].
      * rewrite lookup_insert_ne in Hin by done. by left.
    + right. split; [by right|done].
Qed.

Lemma dict_comp_total m l :
  Forall (λ t, is_Some (task_key t)) l → ∃ m', dict_comp m l = Ok m'.
Proof.
  revert m. induction l as [|t l IH]; intros m; simpl; [eauto|].
  intros [[k Hk] Hl]%Forall_cons.
  rewrite (map_add_ok _ _ _ Hk); simpl. by apply IH.
Qed.

Lemma dict_valued_default m k :
  dict_valued m → ∃ od, default (JObj []) (m !! k) = JObj od.
Proof.
  intros Hm. destruct (m !! k) as [v|] eqn:Hv; simpl; [|by eexists].
  specialize (Hm _ _ Hv). destruct v; try done. by eexists.
Qed.

Lemma existing_tasks_map_dict_valued old m :
  existing_tasks_map old = Ok m → dict_valued m.
Proof.
  unfold existing_tasks_map.
  destruct (tasks_of old) as [l|]; [simpl|discriminate].
  intros Hcomp k v Hv.
  destruct (dict_comp_entries _ _ _ _ _ Hcomp Hv) as [Hin|[_ Hkey]].
  - by rewrite lookup_empty in Hin.
  - by apply task_key_inv in Hkey as (d & id & -> & _).
Qed.

Lemma existing_tasks_map_inv old m :
  existing_tasks_map old = Ok m →
  ∃ ots, tasks_of old = Ok ots ∧ dict_comp ∅ ots = Ok m.
Proof.
  unfold existing_tasks_map.
  destruct (tasks_of old) as [l|]; [simpl|discriminate]. eauto.
Qed.

(** ** The list of merged tasks *)

Lemma list_comp_Forall2 m nts l :
  list_comp m nts = Ok l ↔ Forall2 (λ nt mt, merged_task m nt = Ok mt) nts l.
Proof.
  revert l. induction nts as [|nt nts IH]; intros l; simpl.
  - split; [intros [= <-]; constructor|by intros ->%Forall2_nil_inv_l].
  - split.
    + destruct (merged_task m nt) as [t|] eqn:Ht; [simpl|discriminate].
      destruct (list_comp m nts) as [ts|] eqn:Hts; [simpl|discriminate].
      intros [= <-]. constructor; [done|]. by apply IH.
    + intros (mt & l' & Hmt & Hl' & ->)%Forall2_cons_inv_l.
      rewrite Hmt; simpl. apply IH in Hl'. by rewrite Hl'.
Qed.

Lemma tasks_of_collection l : tasks_of (collection l) = Ok l.
Proof. reflexivity. Qed.

Lemma merge_inv old new out :
  merge old new = Ok out →
  ∃ m nts l,
    existing_tasks_map old = Ok m ∧ tasks_of new = Ok nts ∧
    Forall2 (λ nt mt, merged_task m nt = Ok mt) nts l ∧ out = collection l.
Proof.
  unfold merge, merged_tasks.
  destruct (existing_tasks_map old) as [m|]; [simpl|discriminate].
  destruct (tasks_of new) as [nts|]; [simpl|discriminate].
  destruct (list_comp m nts) as [l|] eqn:Hl; [simpl|discriminate].
  intros [= <-]. exists m, nts, l. by rewrite <- list_comp_Forall2.
Qed.

(** The merged task at a position is the dict display of the new task at
    that position. *)
Lemma merge_lookup old new out m nts i nt :
  merge old new = Ok out →
  existing_tasks_map old = Ok m →
  tasks_of new = Ok nts →
  nts !! i = Some nt →
  ∃ l mt, out = collection l ∧ l !! i = Some mt ∧ merged_task m nt = Ok mt.
Proof.
  intros (m' & nts' & l & Hm & Hnts & Hall & ->)%merge_inv Hm' Hnts' Hi.
  assert (m' = m) as -> by congruence.
  assert (nts' = nts) as -> by congruence.
  destruct (Forall2_lookup_l _ _ _ _ _ Hall Hi) as (mt & Hmt & Hok).
  by exists l, mt.
Qed.

Lemma merged_task_total m nt :
  dict_valued m →
  is_Some (task_key nt) → is_Some (field "status" nt) →
  ∃ mt, merged_task m nt = Ok mt.
Proof.
  intros Hm [k (nd & id & -> & Hid & Hk)%task_key_inv] [ns Hns]; simpl in Hns.
  destruct (dict_valued_default m k Hm) as [od Hod].
  eexists. by apply (merged_task_ok m nd id k od ns).
Qed.

Lemma list_comp_total m nts :
  dict_valued m →
  Forall (λ t, is_Some (task_key t) ∧ is_Some (field "status" t)) nts →
  ∃ l, list_comp m nts = Ok l.
Proof.
  intros Hm. induction 1 as [|nt nts [Hk Hs] _ [l IH]]; simpl; [eauto|].
  destruct (merged_task_total m nt Hm Hk Hs) as [mt ->]; simpl.
  rewrite IH; simpl. eauto.
Qed.

(** The merge succeeds on tasks that have what the script reads: a hashable
    [id] on both sides and a [status] on the new side. *)
Lemma merge_total old new ots nts :
  tasks_of old = Ok ots → tasks_of new = Ok nts →
  Forall (λ t, is_Some (task_key t)) ots →
  Forall (λ t, is_Some (task_key t) ∧ is_Some (field "status" t)) nts →
  ∃ l, merge old new = Ok (collection l).
Proof.
  intros Hots Hnts Hold Hnew.
  destruct (dict_comp_total ∅ ots Hold) as [m Hm].
  assert (Hmap : existing_tasks_map old = Ok m).
  { unfold existing_tasks_map. by rewrite Hots. }
  destruct (list_comp_total m nts (existing_tasks_map_dict_valued _ _ Hmap) Hnew)
    as [l Hl].
  exists l. unfold merge, merged_tasks. rewrite Hmap; simpl.
  rewrite Hnts; simpl. by rewrite Hl.
Qed.

(** The merged task of a new task whose key the old collection has: the last
    old task with that key supplies [status] and [subtasks] where it has
    them. *)
Lemma merge_matched old new out ots1 ot ots2 nts i nt k :
  merge old new = Ok out →
  tasks_of old = Ok (ots1 ++ ot :: ots2) →
  task_key ot = Some k →
  Forall (λ t, task_key t ≠ Some k) ots2 →
  tasks_of new = Ok nts → nts !! i = Some nt → task_key nt = Some k →
  ∃ od nd ns l,
    ot = JObj od ∧ nt = JObj nd ∧ dict_get "status" nd = Some ns ∧
    out = collection l ∧
    l !! i = Some (JObj (dict_set "subtasks"
                           (default (default (JArr []) (dict_get "subtasks" nd))
                                    (dict_get "subtasks" od))
                           (dict_set "status" (default ns (dict_get "status" od)) nd))).
Proof.
  intros Hmerge Hots Hk Hlast Hnts Hi Hnk.
  destruct (merge_inv _ _ _ Hmerge) as (m & _ & _ & Hm & _).
  destruct (existing_tasks_map_inv _ _ Hm) as (ots & Hots' & Hcomp).
  assert (ots = ots1 ++ ot :: ots2) as -> by congruence.
  pose proof (dict_comp_last _ _ _ _ _ _ Hcomp Hk Hlast) as Hlook.
  destruct (merge_lookup _ _ _ _ _ _ _ Hmerge Hm Hnts Hi) as (l & mt & -> & Hl & Hmt).
  apply merged_task_inv in Hmt as (nd & id & k' & od & ns & -> & Hid & Hk' & Hod & Hns & ->).
  rewrite (task_key_obj _ _ _ Hid Hk') in Hnk. injection Hnk as ->.
  rewrite Hlook in Hod; simpl in Hod. subst ot.
  by exists od, nd, ns, l.
Qed.

(** The merged task of a new task whose key the old collection lacks. *)
Lemma merge_unmatched old new out ots nts i nt k :
  merge old new = Ok out →
  tasks_of old = Ok ots →
  Forall (λ t, task_key t ≠ Some k) ots →
  tasks_of new = Ok nts → nts !! i = Some nt → task_key nt = Some k →
  ∃ nd l,
    nt = JObj nd ∧ out = collection l ∧
    l !! i = Some (JObj (dict_set "subtasks"
                           (default (JArr []) (dict_get "subtasks" nd)) nd)).
Proof.
  intros Hmerge Hots Hnone Hnts Hi Hnk.
  destruct (merge_inv _ _ _ Hmerge) as (m & _ & _ & Hm & _).
  destruct (existing_tasks_map_inv _ _ Hm) as (ots' & Hots' & Hcomp).
  assert (ots' = ots) as -> by congruence.
  pose proof (dict_comp_skip _ _ _ _ Hcomp Hnone) as Hlook.
  rewrite lookup_empty in Hlook.
  destruct (merge_lookup _ _ _ _ _ _ _ Hmerge Hm Hnts Hi) as (l & mt & -> & Hl & Hmt).
  apply merged_task_inv in Hmt as (nd & id & k' & od & ns & -> & Hid & Hk' & Hod & Hns & ->).
  rewrite (task_key_obj _ _ _ Hid Hk') in Hnk. injection Hnk as ->.
  rewrite Hlook in Hod; simpl in Hod. injection Hod as <-. simpl in Hl.
  rewrite (dict_set_id _ _ _ Hns) in Hl.
  by exists nd, l.
Qed.

Lemma field_merged f nd s u :
  f ≠ "status" → f ≠ "subtasks" →
  dict_get f (dict_set "subtasks" u (dict_set "status" s nd)) = dict_get f nd.
Proof. intros H1 H2. by rewrite !dict_get_set_ne. Qed.

Lemma status_merged nd s u :
  dict_get "status" (dict_set "subtasks" u (dict_set "status" s nd)) = Some s.
Proof. by rewrite dict_get_set_ne, dict_get_set_eq. Qed.

Lemma subtasks_merged nd s u :
  dict_get "subtasks" (dict_set "subtasks" u (dict_set "status" s nd)) = Some u.
Proof. apply dict_get_set_eq. Qed.

(** ** The script as a whole *)

Lemma script_fails w old new e :
  files w !! "tasks/tasks.json" = Some (Json old) →
  files w !! "tasks/tasks.json.new" = Some (Json new) →
  merge old new = Err e →
  script w = (w, Err e).
Proof.
  intros Hold Hnew. unfold script, io_bind, load, lift, merge.
  rewrite Hold, Hnew.
  destruct (existing_tasks_map old) as [m|]; simpl; [|by intros [= ->]].
  destruct (merged_tasks m new); [discriminate|by intros [= ->]].
Qed.

Lemma script_succeeds w old new out :
  files w !! "tasks/tasks.json" = Some (Json old) →
  files w !! "tasks/tasks.json.new" = Some (Json new) →
  merge old new = Ok out →
  script w =
    (World (<["tasks/tasks.json.merged" := Json out]> (files w))
           (stdout w ++ ["Tasks merged successfully!"]), Ok tt).
Proof.
  intros Hold Hnew. unfold script, io_bind, load, lift, merge.
  rewrite Hold, Hnew.
  destruct (existing_tasks_map old) as [m|]; simpl; [|discriminate].
  destruct (merged_tasks m new); [|discriminate]. by intros [= ->].
Qed.

(** ** The spec's example *)

(** C8: on the example of the spec (old tasks 1 and 2, new tasks 1 and 3) the
    merge yields the expected document: task 1 with the old status and
    subtasks and the new title, task 3 with an empty [subtasks] added, no
    task 2; the fields come in the order the expected output lists them.  Run
    on the two files, the script writes that document and prints its
    message. *)
Theorem example_merge :
  merge example_old example_new = Ok example_merged ∧
  script (world_of example_old example_new) =
    (World (<["tasks/tasks.json.merged" := Json example_merged]>
              (files (world_of example_old example_new)))
           ["Tasks merged successfully!"], Ok tt).
Proof.
  assert (Hmerge : merge example_old example_new = Ok example_merged).
  { vm_compute. reflexivity. }
  split; [exact Hmerge|].
  rewrite (script_succeeds _ example_old example_new example_merged);
    [reflexivity|vm_compute; reflexivity..|exact Hmerge].
Qed.

(** ** Tasks present in both collections *)

(** C1 as stated fails: an old task without [subtasks] does not blank the
    [subtasks] of the new task, even reading an absent [subtasks] as the
    empty sequence. *)
Lemma old_fields_kept_fails :
  ¬ (∀ out ots nts l i ot nt mt,
       merge (collection [bare_old_1]) (collection [rich_new_1]) = Ok out →
       tasks_of (collection [bare_old_1]) = Ok ots →
       tasks_of (collection [rich_new_1]) = Ok nts →
       tasks_of out = Ok l →
       ot ∈ ots → nts !! i = Some nt →
       is_Some (task_key nt) → task_key ot = task_key nt →
       l !! i = Some mt →
       field "status" mt = field "status" ot ∧
       default (JArr []) (field "subtasks" mt)
         = default (JArr []) (field "subtasks" ot) ∧
       ∀ f, f ≠ "status" → f ≠ "subtasks" → field f mt = field f nt).
Proof.
  intros H.
  destruct (H (collection [rich_merged_1]) [bare_old_1] [rich_new_1]
              [rich_merged_1] 0%nat bare_old_1 rich_new_1 rich_merged_1)
    as (_ & Hsub & _); try reflexivity.
  - by left.
  - by exists (KInt 1).
  - discriminate Hsub.
Qed.

(** C1, amended: when the merge succeeds, a new task whose [id] the old
    collection has gets the [status] of the last old task with that [id] if
    that task has one and keeps its own otherwise; it gets that old task's
    [subtasks] if it has the field, else its own [subtasks], else the empty
    sequence; every other field is the new task's. *)
Theorem matched_task_fields old new out ots1 ot ots2 nts i nt k :
  merge old new = Ok out →
  tasks_of old = Ok (ots1 ++ ot :: ots2) →
  task_key ot = Some k →
  Forall (λ t, task_key t ≠ Some k) ots2 →
  tasks_of new = Ok nts → nts !! i = Some nt → task_key nt = Some k →
  ∃ l mt ns,
    out = collection l ∧ l !! i = Some mt ∧ field "status" nt = Some ns ∧
    field "status" mt = Some (default ns (field "status" ot)) ∧
    field "subtasks" mt
      = Some (default (default (JArr []) (field "subtasks" nt))
                      (field "subtasks" ot)) ∧
    ∀ f, f ≠ "status" → f ≠ "subtasks" → field f mt = field f nt.
Proof.
  intros Hmerge Hots Hk Hlast Hnts Hi Hnk.
  destruct (merge_matched _ _ _ _ _ _ _ _ _ _ Hmerge Hots Hk Hlast Hnts Hi Hnk)
    as (od & nd & ns & l & -> & -> & Hns & -> & Hl).
  eexists l, _, ns.
  split; [done|]. split; [exact Hl|]. split; [exact Hns|]. simpl.
  split; [apply status_merged|]. split; [apply subtasks_merged|].
  intros f Hf1 Hf2. by apply field_merged.
Qed.

Lemma matched_task_fields_witness :
  ∃ l mt ns,
    example_merged = collection l ∧ l !! 0%nat = Some mt ∧
    field "status" example_new_1 = Some ns ∧
    field "status" mt = Some (default ns (field "status" example_old_1)) ∧
    field "subtasks" mt
      = Some (default (default (JArr []) (field "subtasks" example_new_1))
                      (field "subtasks" example_old_1)) ∧
    ∀ f, f ≠ "status" → f ≠ "subtasks" → field f mt = field f example_new_1.
Proof.
  apply (matched_task_fields example_old example_new example_merged
           [] example_old_1 [example_old_2]
           [example_new_1; example_new_3] 0 example_new_1 (KInt 1)).
  - vm_compute. reflexivity.
  - reflexivity.
  - reflexivity.
  - repeat constructor. vm_compute. discriminate.
  - reflexivity.
  - reflexivity.
  - reflexivity.
Defined.

(** C2 as stated fails: with no [subtasks] in the old task, the merged
    [subtasks] is the new task's, not the empty sequence. *)
Lemma absent_old_subtasks_not_empty :
  ¬ (∀ out ots nts l i ot nt mt,
       merge (collection [bare_old_1]) (collection [rich_new_1]) = Ok out →
       tasks_of (collection [bare_old_1]) = Ok ots →
       tasks_of (collection [rich_new_1]) = Ok nts →
       tasks_of out = Ok l →
       ot ∈ ots → nts !! i = Some nt →
       is_Some (task_key nt) → task_key ot = task_key nt →
       l !! i = Some mt →
       field "subtasks" ot = None →
       field "subtasks" mt = Some (JArr [])).
Proof.
  intros H.
  assert (Hsub : field "subtasks" rich_merged_1 = Some (JArr [])).
  { apply (H (collection [rich_merged_1]) [bare_old_1] [rich_new_1]
             [rich_merged_1] 0%nat bare_old_1 rich_new_1); try reflexivity.
    - by left.
    - by exists (KInt 1). }
  discriminate Hsub.
Qed.

(** C2, amended: when the merge succeeds, a new task whose [id] matches an old
    task takes the [subtasks] of that old task (the last with that [id]) when
    the old task has the field; when the old task has no [subtasks], the
    merged [subtasks] is the new task's if it has one, else the empty
    sequence. *)
Theorem matched_task_subtasks old new out ots1 ot ots2 nts i nt k :
  merge old new = Ok out →
  tasks_of old = Ok (ots1 ++ ot :: ots2) →
  task_key ot = Some k →
  Forall (λ t, task_key t ≠ Some k) ots2 →
  tasks_of new = Ok nts → nts !! i = Some nt → task_key nt = Some k →
  ∃ l mt,
    out = collection l ∧ l !! i = Some mt ∧
    (∀ u, field "subtasks" ot = Some u → field "subtasks" mt = Some u) ∧
    (field "subtasks" ot = None →
     ∀ u, field "subtasks" nt = Some u → field "subtasks" mt = Some u) ∧
    (field "subtasks" ot = None → field "subtasks" nt = None →
     field "subtasks" mt = Some (JArr [])).
Proof.
  intros Hmerge Hots Hk Hlast Hnts Hi Hnk.
  destruct (merge_matched _ _ _ _ _ _ _ _ _ _ Hmerge Hots Hk Hlast Hnts Hi Hnk)
    as (od & nd & ns & l & -> & -> & Hns & -> & Hl).
  eexists l, _.
  split; [done|]. split; [exact Hl|]. simpl. rewrite subtasks_merged.
  split; [by intros u ->|]. split; [by intros -> u ->|by intros -> ->].
Qed.

Lemma matched_task_subtasks_witness :
  ∃ l mt,
    collection [rich_merged_1] = collection l ∧ l !! 0%nat = Some mt ∧
    (∀ u, field "subtasks" bare_old_1 = Some u → field "subtasks" mt = Some u) ∧
    (field "subtasks" bare_old_1 = None →
     ∀ u, field "subtasks" rich_new_1 = Some u → field "subtasks" mt = Some u) ∧
    (field "subtasks" bare_old_1 = None → field "subtasks" rich_new_1 = None →
     field "subtasks" mt = Some (JArr [])).
Proof.
  apply (matched_task_subtasks (collection [bare_old_1]) (collection [rich_new_1])
           (collection [rich_merged_1]) [] bare_old_1 [] [rich_new_1]
           0 rich_new_1 (KInt 1)).
  - vm_compute. reflexivity.
  - reflexivity.
  - reflexivity.
  - constructor.
  - reflexivity.
  - reflexivity.
  - reflexivity.
Defined.

(** ** Tasks present only in the new collection *)

(** C3 as stated fails on the spec's own example: task 3 has no old
    counterpart, and its merged entry has a [subtasks] field the new entry
    does not have. *)
Lemma unmatched_task_not_exact :
  ¬ (∀ out ots nts l i nt mt,
       merge example_old example_new = Ok out →
       tasks_of example_old = Ok ots →
       tasks_of example_new = Ok nts →
       tasks_of out = Ok l →
       nts !! i = Some nt → is_Some (task_key nt) →
       Forall (λ ot, task_key ot ≠ task_key nt) ots →
       l !! i = Some mt →
       mt = nt).
Proof.
  intros H.
  assert (Heq : example_merged_3 = example_new_3).
  { apply (H example_merged [example_old_1; example_old_2]
             [example_new_1; example_new_3]
             [example_merged_1; example_merged_3] 1%nat); try reflexivity.
    - by exists (KInt 3).
    - repeat constructor; vm_compute; discriminate. }
  discriminate Heq.
Qed.

(** C3, amended: when the merge succeeds, a new task whose [id] no old task
    has is merged into itself if it has a [subtasks] field, and into itself
    with a last field [subtasks] holding the empty sequence if it has none. *)
Theorem unmatched_task_entry old new out ots nts i nt k :
  merge old new = Ok out →
  tasks_of old = Ok ots →
  Forall (λ t, task_key t ≠ Some k) ots →
  tasks_of new = Ok nts → nts !! i = Some nt → task_key nt = Some k →
  ∃ l nd,
    out = collection l ∧ nt = JObj nd ∧
    l !! i = Some (JObj (match dict_get "subtasks" nd with
                         | Some _ => nd
                         | None => nd ++ [("subtasks", JArr [])]
                         end)).
Proof.
  intros Hmerge Hots Hnone Hnts Hi Hnk.
  destruct (merge_unmatched _ _ _ _ _ _ _ _ Hmerge Hots Hnone Hnts Hi Hnk)
    as (nd & l & -> & -> & Hl).
  exists l, nd. split; [done|]. split; [done|]. rewrite Hl.
  destruct (dict_get "subtasks" nd) as [u|] eqn:Hu; simpl.
  - by rewrite (dict_set_id _ _ _ Hu).
  - by rewrite (dict_set_fresh _ _ _ Hu).
Qed.

Lemma unmatched_task_entry_witness :
  ∃ l nd,
    example_merged = collection l ∧ example_new_3 = JObj nd ∧
    l !! 1%nat = Some (JObj (match dict_get "subtasks" nd with
                             | Some _ => nd
                             | None => nd ++ [("subtasks", JArr [])]
                             end)).
Proof.
  apply (unmatched_task_entry example_old example_new example_merged
           [example_old_1; example_old_2] [example_new_1; example_new_3]
           1 example_new_3 (KInt 3)).
  - vm_compute. reflexivity.
  - reflexivity.
  - repeat constructor; vm_compute; discriminate.
  - reflexivity.
  - reflexivity.
  - reflexivity.
Defined.

(** ** Length, order and dropped tasks *)

(** C4: when the merge succeeds, the merged sequence is as long as the new
    one and the task at each position has the [id] of the new task at that
    position. *)
Theorem merged_order old new out nts :
  merge old new = Ok out →
  tasks_of new = Ok nts →
  ∃ l,
    out = collection l ∧ length l = length nts ∧
    ∀ i nt, nts !! i = Some nt →
      ∃ mt id, l !! i = Some mt ∧
               py_getitem nt "id" = Ok id ∧ py_getitem mt "id" = Ok id.
Proof.
  intros Hmerge Hnts.
  destruct (merge_inv _ _ _ Hmerge) as (m & nts' & l & Hm & Hnts' & Hall & ->).
  assert (nts' = nts) as -> by congruence.
  exists l. split; [done|]. split; [symmetry; by eapply Forall2_length|].
  intros i nt Hi.
  destruct (Forall2_lookup_l _ _ _ _ _ Hall Hi) as (mt & Hmt & Hok).
  destruct (merged_task_id _ _ _ Hok) as (Hid & _ & [k Hk]).
  apply task_key_inv in Hk as (nd & id & -> & Hnid & _).
  exists mt, id. split; [done|]. rewrite Hid. simpl. by rewrite Hnid.
Qed.

Lemma merged_order_witness :
  ∃ l,
    example_merged = collection l ∧
    length l = length [example_new_1; example_new_3] ∧
    ∀ i nt, [example_new_1; example_new_3] !! i = Some nt →
      ∃ mt id, l !! i = Some mt ∧
               py_getitem nt "id" = Ok id ∧ py_getitem mt "id" = Ok id.
Proof.
  apply (merged_order example_old example_new).
  - vm_compute. reflexivity.
  - reflexivity.
Defined.

(** C5: on tasks the script can read (a hashable [id] everywhere, a [status]
    in the new tasks) the merge succeeds whatever the old collection holds
    besides, and the output has no task under an [id] that only the old
    collection has. *)
Theorem old_only_tasks_dropped old new ots nts :
  tasks_of old = Ok ots → tasks_of new = Ok nts →
  Forall (λ t, is_Some (task_key t)) ots →
  Forall (λ t, is_Some (task_key t) ∧ is_Some (field "status" t)) nts →
  ∃ l,
    merge old new = Ok (collection l) ∧
    ∀ ot k, ot ∈ ots → task_key ot = Some k →
      Forall (λ nt, task_key nt ≠ Some k) nts →
      Forall (λ mt, task_key mt ≠ Some k) l.
Proof.
  intros Hots Hnts Hold Hnew.
  destruct (merge_total _ _ _ _ Hots Hnts Hold Hnew) as [l Hmerge].
  exists l. split; [done|]. intros ot k _ _ Habsent.
  destruct (merge_inv _ _ _ Hmerge) as (m & nts' & l' & _ & Hnts' & Hall & [= <-]).
  assert (nts' = nts) as -> by congruence.
  clear Hnew Hmerge Hnts Hnts'.
  induction Hall as [|nt mt nts l Hok _ IH]; [constructor|].
  apply Forall_cons in Habsent as [Hnt Habsent].
  constructor; [|by apply IH].
  destruct (merged_task_id _ _ _ Hok) as (_ & -> & _). done.
Qed.

Lemma old_only_tasks_dropped_witness :
  ∃ l,
    merge example_old example_new = Ok (collection l) ∧
    ∀ ot k, ot ∈ [example_old_1; example_old_2] → task_key ot = Some k →
      Forall (λ nt, task_key nt ≠ Some k) [example_new_1; example_new_3] →
      Forall (λ mt, task_key mt ≠ Some k) l.
Proof.
  apply (old_only_tasks_dropped example_old example_new).
  - reflexivity.
  - reflexivity.
  - repeat econstructor.
  - repeat econstructor.
Defined.

(** ** Duplicate ids in the old collection *)

(** C10: when several old tasks share an [id], the dict holds the last of
    them, and every new task with that [id] is merged as if that last task
    were the only old task: where it has a [status] or a [subtasks], the
    merged task has the same. *)
Theorem last_duplicate_wins old m ots1 ot ots2 k :
  existing_tasks_map old = Ok m →
  tasks_of old = Ok (ots1 ++ ot :: ots2) →
  task_key ot = Some k →
  Forall (λ t, task_key t ≠ Some k) ots2 →
  m !! k = Some ot ∧
  ∀ new out nts i nt,
    merge old new = Ok out →
    tasks_of new = Ok nts → nts !! i = Some nt → task_key nt = Some k →
    ∃ l mt,
      out = collection l ∧ l !! i = Some mt ∧
      merged_task {[k := ot]} nt = Ok mt ∧
      (∀ s, field "status" ot = Some s → field "status" mt = Some s) ∧
      (∀ u, field "subtasks" ot = Some u → field "subtasks" mt = Some u).
Proof.
  intros Hm Hots Hk Hlast. split.
  - destruct (existing_tasks_map_inv _ _ Hm) as (ots & Hots' & Hcomp).
    assert (ots = ots1 ++ ot :: ots2) as -> by congruence.
    by eapply dict_comp_last.
  - intros new out nts i nt Hmerge Hnts Hi Hnk.
    destruct (merge_matched _ _ _ _ _ _ _ _ _ _ Hmerge Hots Hk Hlast Hnts Hi Hnk)
      as (od & nd & ns & l & -> & -> & Hns & -> & Hl).
    apply task_key_inv in Hnk as (nd' & id & [= <-] & Hid & Hhash).
    eexists l, _. split; [done|]. split; [exact Hl|]. split.
    + apply (merged_task_ok _ nd id k od ns); try done.
      by rewrite lookup_singleton_eq.
    + simpl. rewrite status_merged, subtasks_merged.
      split; [by intros s ->|by intros u ->].
Qed.

Lemma last_duplicate_wins_witness :
  ({[KInt 1 := twin_b]} : gmap pykey json) !! KInt 1 = Some twin_b ∧
  ∀ new out nts i nt,
    merge (collection [twin_a; twin_b]) new = Ok out →
    tasks_of new = Ok nts → nts !! i = Some nt → task_key nt = Some (KInt 1) →
    ∃ l mt,
      out = collection l ∧ l !! i = Some mt ∧
      merged_task {[KInt 1 := twin_b]} nt = Ok mt ∧
      (∀ s, field "status" twin_b = Some s → field "status" mt = Some s) ∧
      (∀ u, field "subtasks" twin_b = Some u → field "subtasks" mt = Some u).
Proof.
  apply (last_duplicate_wins (collection [twin_a; twin_b]) _ [twin_a] twin_b []).
  - vm_compute. reflexivity.
  - reflexivity.
  - reflexivity.
  - constructor.
Defined.

(** ** Merging twice *)

Lemma merged_keys m nts l :
  Forall2 (λ nt mt, merged_task m nt = Ok mt) nts l →
  task_key <$> l = task_key <$> nts.
Proof.
  induction 1 as [|nt mt nts l Hok _ IH]; [done|].
  rewrite !fmap_cons, IH.
  destruct (merged_task_id _ _ _ Hok) as (_ & -> & _). done.
Qed.

(** With pairwise distinct keys, each task is the one filed under its key. *)
Lemma dict_comp_nodup l m i t k :
  dict_comp ∅ l = Ok m →
  NoDup (task_key <$> l) →
  l !! i = Some t → task_key t = Some k →
  m !! k = Some t.
Proof.
  intros Hcomp Hnodup Hi Hk.
  rewrite <- (take_drop_middle l i t Hi) in Hcomp.
  apply (dict_comp_last _ _ _ _ _ _ Hcomp Hk).
  apply Forall_forall. intros x [j Hj]%list_elem_of_lookup Hx.
  rewrite lookup_drop in Hj.
  assert (Hki : (task_key <$> l) !! i = Some (Some k)).
  { by rewrite list_lookup_fmap, Hi; simpl; rewrite Hk. }
  assert (Hkj : (task_key <$> l) !! (S i + j)%nat = Some (Some k)).
  { by rewrite list_lookup_fmap, Hj; simpl; rewrite Hx. }
  pose proof (NoDup_lookup _ _ _ _ Hnodup Hki Hkj). lia.
Qed.

(** C6 as stated fails: when two new tasks share an [id], the second merge
    gives both the [status] of the later one. *)
Lemma merge_twice_repeated_id :
  ¬ (∀ out,
       merge (collection []) (collection [twin_a; twin_b]) = Ok out →
       merge out (collection [twin_a; twin_b]) = Ok out).
Proof.
  intros H.
  specialize (H (collection [twin_a_merged; twin_b_merged]) eq_refl).
  vm_compute in H. discriminate H.
Qed.

(** C6, amended: when the merge succeeds and the [id]s of the new collection
    are pairwise distinct as dict keys, merging the result with the same new
    collection gives the result again. *)
Theorem merge_idempotent old new out nts :
  merge old new = Ok out →
  tasks_of new = Ok nts →
  NoDup (task_key <$> nts) →
  merge out new = Ok out.
Proof.
  intros Hmerge Hnts Hnodup.
  destruct (merge_inv _ _ _ Hmerge) as (m & nts' & l & Hm & Hnts' & Hall & ->).
  assert (nts' = nts) as -> by congruence.
  pose proof (merged_keys _ _ _ Hall) as Hkeys.
  destruct (dict_comp_total ∅ l) as [m2 Hm2].
  { clear -Hall. induction Hall as [|nt mt nts l Hok _ IH]; constructor; [|done].
    destruct (merged_task_id _ _ _ Hok) as (_ & -> & ?). done. }
  assert (Hall2 : Forall2 (λ nt mt, merged_task m2 nt = Ok mt) nts l).
  { apply Forall2_same_length_lookup_2; [by eapply Forall2_length|].
    intros i nt mt Hi Hl.
    pose proof (Forall2_lookup_lr _ _ _ _ _ _ Hall Hi Hl) as Hok.
    destruct (merged_task_id _ _ _ Hok) as (_ & Hmk & _).
    apply merged_task_inv in Hok
      as (nd & id & k & od & ns & -> & Hid & Hk & Hod & Hns & ->).
    rewrite (task_key_obj _ _ _ Hid Hk) in Hmk.
    assert (Hlook : m2 !! k = Some (JObj (dict_set "subtasks"
              (default (default (JArr []) (dict_get "subtasks" nd))
                       (dict_get "subtasks" od))
              (dict_set "status" (default ns (dict_get "status" od)) nd)))).
    { eapply dict_comp_nodup; [exact Hm2| |exact Hl|exact Hmk].
      by rewrite Hkeys. }
    rewrite (merged_task_ok m2 nd id k _ ns Hid Hk (f_equal _ Hlook) Hns).
    by rewrite status_merged, subtasks_merged. }
  apply list_comp_Forall2 in Hall2.
  unfold merge, existing_tasks_map, merged_tasks.
  rewrite tasks_of_collection; simpl. rewrite Hm2; simpl.
  rewrite Hnts; simpl. by rewrite Hall2.
Qed.

Lemma merge_idempotent_witness : merge example_merged example_new = Ok example_merged.
Proof.
  apply (merge_idempotent example_old example_new example_merged
           [example_new_1; example_new_3]).
  - vm_compute. reflexivity.
  - reflexivity.
  - apply (bool_decide_unpack _). vm_compute. exact I.
Defined.

(** ** Missing fields *)

Lemma lacks_id_no_key t : lacks "id" t → task_key t = None.
Proof.
  intros [Hd Hf]. destruct t as [| | | | |d]; try done.
  unfold task_key; simpl in *. by rewrite Hf.
Qed.

Lemma shaped_cases t :
  entry_shaped t → is_Some (task_key t) ∨ lacks "id" t.
Proof.
  unfold entry_shaped. intros [Hd Hid]%andb_prop_elim.
  destruct t as [| | | | |d]; try done. simpl in Hid.
  destruct (dict_get "id" d) as [id|] eqn:Hget.
  - left. unfold task_key; simpl. rewrite Hget.
    destruct id; simpl in *; try done; eauto.
  - right. by split.
Qed.

Lemma map_add_lacks m t : lacks "id" t → map_add m t = Err (KeyError "id").
Proof.
  intros [Hd Hf]. destruct t as [| | | | |d]; try done.
  unfold map_add; simpl in *. by rewrite Hf.
Qed.

(** On shaped entries, filing the old tasks can only fail for a missing
    [id]. *)
Lemma dict_comp_shaped m l :
  Forall entry_shaped l →
  Forall (λ t, is_Some (task_key t)) l ∨ dict_comp m l = Err (KeyError "id").
Proof.
  intros Hl. revert m. induction Hl as [|t l Ht _ IH]; intros m.
  - left. constructor.
  - destruct (shaped_cases t Ht) as [[k Hk]|Hlacks]; simpl.
    + rewrite (map_add_ok _ _ _ Hk); simpl.
      destruct (IH (<[k := t]> m)) as [Hall|Herr]; [left|by right].
      constructor; eauto.
    + right. by rewrite (map_add_lacks _ _ Hlacks).
Qed.

Lemma merged_task_lacks_id m nt :
  lacks "id" nt → merged_task m nt = Err (KeyError "id").
Proof.
  intros [Hd Hf]. destruct nt as [| | | | |d]; try done.
  unfold merged_task; simpl in *. by rewrite Hf.
Qed.

(** The default of the [status] lookup is evaluated before the lookup: a new
    task without [status] fails whatever the dict holds. *)
Lemma merged_task_lacks_status m nt :
  dict_valued m → is_Some (task_key nt) → lacks "status" nt →
  merged_task m nt = Err (KeyError "status").
Proof.
  intros Hm [k (nd & id & -> & Hid & Hk)%task_key_inv] [_ Hf]; simpl in Hf.
  destruct (dict_valued_default m k Hm) as [od Hod].
  unfold merged_task, map_get; simpl. rewrite Hid; simpl. rewrite Hk; simpl.
  rewrite Hod; simpl. by rewrite Hf.
Qed.

Lemma list_comp_ok_inv m nts l :
  list_comp m nts = Ok l →
  Forall (λ t, is_Some (task_key t) ∧ is_Some (field "status" t)) nts.
Proof.
  intros Hall%list_comp_Forall2.
  induction Hall as [|nt mt nts l Hok _ IH]; constructor; [|done].
  apply merged_task_inv in Hok as (nd & id & k & od & ns & -> & Hid & Hk & _ & Hns & _).
  split; [rewrite (task_key_obj _ _ _ Hid Hk)|simpl; rewrite Hns]; eauto.
Qed.

(** On shaped entries and a dict of dicts, the list comprehension can only
    fail for a missing [id] or a missing [status]. *)
Lemma list_comp_err m nts e :
  dict_valued m → Forall entry_shaped nts →
  list_comp m nts = Err e →
  (e = KeyError "id" ∧ Exists (lacks "id") nts) ∨ e = KeyError "status".
Proof.
  intros Hm Hnts. induction Hnts as [|nt nts Hnt _ IH]; simpl; [discriminate|].
  destruct (shaped_cases nt Hnt) as [Hk|Hlacks].
  - destruct (field "status" nt) as [ns|] eqn:Hns.
    + destruct (merged_task_total m nt Hm Hk) as [mt ->]; [by rewrite Hns|]. simpl.
      destruct (list_comp m nts) as [l|e']; [discriminate|]. simpl.
      intros [= <-]. destruct IH as [[-> Hex]| ->]; [done|left|by right].
      split; [done|by right].
    + rewrite (merged_task_lacks_status m nt Hm Hk); simpl.
      * intros [= <-]. by right.
      * split; [|done]. destruct Hk as [k (d & ? & -> & _)%task_key_inv]. done.
  - rewrite (merged_task_lacks_id _ _ Hlacks); simpl.
    intros [= <-]. left. split; [done|by left].
Qed.

(** With an [id] in every new task, only a missing [status] is left. *)
Lemma list_comp_lacks_status m nts :
  dict_valued m →
  Forall (λ t, is_Some (task_key t)) nts →
  Exists (lacks "status") nts →
  list_comp m nts = Err (KeyError "status").
Proof.
  intros Hm Hkeys Hex. induction Hkeys as [|nt nts Hk _ IH]; simpl.
  - by apply Exists_nil in Hex.
  - destruct (field "status" nt) as [ns|] eqn:Hns.
    + destruct (merged_task_total m nt Hm Hk) as [mt ->]; [by rewrite Hns|]. simpl.
      apply Exists_cons in Hex as [[_ Hnone]|Hex]; [congruence|].
      by rewrite (IH Hex).
    + rewrite (merged_task_lacks_status m nt Hm Hk); [done|].
      split; [|done]. destruct Hk as [k (d & ? & -> & _)%task_key_inv]. done.
Qed.

(** A task without [id], on either side, never lets the merge return. *)
Lemma missing_id_never_merges old new ots nts out :
  tasks_of old = Ok ots → tasks_of new = Ok nts →
  Exists (lacks "id") (ots ++ nts) →
  merge old new ≠ Ok out.
Proof.
  intros Hots Hnts Hex Hmerge.
  destruct (merge_inv _ _ _ Hmerge) as (m & nts' & l & Hm & Hnts' & Hall & _).
  assert (nts' = nts) as -> by congruence.
  destruct (existing_tasks_map_inv _ _ Hm) as (ots' & Hots' & Hcomp).
  assert (ots' = ots) as -> by congruence.
  apply list_comp_Forall2, list_comp_ok_inv in Hall.
  apply dict_comp_keys in Hcomp.
  apply Exists_app in Hex as [Hex|Hex];
    apply Exists_exists in Hex as (t & Hin & Hlacks%lacks_id_no_key).
  - rewrite Forall_forall in Hcomp. destruct (Hcomp t Hin) as [k Hk]. congruence.
  - rewrite Forall_forall in Hall. destruct (Hall t Hin) as [[k Hk] _]. congruence.
Qed.

(** C7: when the entries of both collections are dicts with scalar [id]s and
    one of them has no [id], the merge raises a [KeyError] (for [id], or for
    the [status] of an earlier new task), and the script stops there: no file
    is written and nothing is printed. *)
Theorem missing_id_aborts w old new ots nts :
  files w !! "tasks/tasks.json" = Some (Json old) →
  files w !! "tasks/tasks.json.new" = Some (Json new) →
  tasks_of old = Ok ots → tasks_of new = Ok nts →
  Forall entry_shaped (ots ++ nts) →
  Exists (lacks "id") (ots ++ nts) →
  ∃ f, (f = "id" ∨ f = "status") ∧
       merge old new = Err (KeyError f) ∧
       script w = (w, Err (KeyError f)).
Proof.
  intros Hfold Hfnew Hots Hnts [Hsold Hsnew]%Forall_app Hex.
  assert (Hgoal : ∃ f, (f = "id" ∨ f = "status") ∧ merge old new = Err (KeyError f)).
  { unfold merge, existing_tasks_map, merged_tasks. rewrite Hots; simpl.
    destruct (dict_comp_shaped ∅ ots Hsold) as [Hkeys|Herr].
    - destruct (dict_comp_total ∅ ots Hkeys) as [m Hm].
      assert (Hdv : dict_valued m).
      { apply (existing_tasks_map_dict_valued old).
        unfold existing_tasks_map. by rewrite Hots. }
      rewrite Hm; simpl. rewrite Hnts; simpl.
      destruct (list_comp m nts) as [l|e] eqn:Hl; simpl.
      + exfalso. apply (missing_id_never_merges old new ots nts (collection l));
          try done.
        unfold merge, existing_tasks_map, merged_tasks.
        rewrite Hots; simpl. rewrite Hm; simpl. rewrite Hnts; simpl. by rewrite Hl.
      + destruct (list_comp_err m nts e Hdv Hsnew Hl) as [[-> _]| ->]; eauto.
    - rewrite Herr; simpl. eauto. }
  destruct Hgoal as (f & Hf & Hmerge). exists f.
  split; [done|]. split; [done|]. by apply (script_fails w old new).
Qed.

Lemma missing_id_aborts_witness :
  ∃ f, (f = "id" ∨ f = "status") ∧
       merge (collection [nameless_task]) example_new = Err (KeyError f) ∧
       script (world_of (collection [nameless_task]) example_new)
         = (world_of (collection [nameless_task]) example_new, Err (KeyError f)).
Proof.
  apply (missing_id_aborts (world_of (collection [nameless_task]) example_new)
           (collection [nameless_task]) example_new
           [nameless_task] [example_new_1; example_new_3]).
  - vm_compute. reflexivity.
  - vm_compute. reflexivity.
  - reflexivity.
  - reflexivity.
  - repeat constructor.
  - left. split; reflexivity.
Defined.

(** C9: when the old dict is built and every new task has its [id], a new
    task without [status] makes the merge raise [KeyError] for [status]; its
    own dict display raises it whatever the old dict holds for its [id]. *)
Theorem missing_status_fails old new m nts :
  existing_tasks_map old = Ok m →
  tasks_of new = Ok nts →
  Forall (λ t, is_Some (task_key t)) nts →
  Exists (lacks "status") nts →
  merge old new = Err (KeyError "status") ∧
  ∀ nt, nt ∈ nts → lacks "status" nt →
        merged_task m nt = Err (KeyError "status").
Proof.
  intros Hm Hnts Hkeys Hex.
  pose proof (existing_tasks_map_dict_valued _ _ Hm) as Hdv. split.
  - unfold merge, merged_tasks. rewrite Hm; simpl. rewrite Hnts; simpl.
    by rewrite (list_comp_lacks_status m nts Hdv Hkeys Hex).
  - intros nt Hin Hlacks. apply merged_task_lacks_status; [done| |done].
    rewrite Forall_forall in Hkeys. by apply Hkeys.
Qed.

Lemma missing_status_fails_witness :
  merge (collection [bare_old_1]) (collection [statusless_new_1])
    = Err (KeyError "status") ∧
  ∀ nt, nt ∈ [statusless_new_1] → lacks "status" nt →
        merged_task {[KInt 1 := bare_old_1]} nt = Err (KeyError "status").
Proof.
  apply (missing_status_fails (collection [bare_old_1])
           (collection [statusless_new_1]) {[KInt 1 := bare_old_1]}
           [statusless_new_1]).
  - vm_compute. reflexivity.
  - reflexivity.
  - repeat econstructor.
  - left. split; reflexivity.
Defined.

(** * Further properties of the script *)

(** ** Which exceptions the merge raises *)

Lemma tasks_of_err c e :
  tasks_of c = Err e → e = TypeError ∨ e = KeyError "tasks".
Proof.
  unfold tasks_of, py_getitem. destruct c as [| | | | |d]; simpl;
    try (intros [= <-]; by left).
  destruct (dict_get "tasks" d) as [ts|]; simpl; [|intros [= <-]; by right].
  destruct ts; simpl; try discriminate; intros [= <-]; by left.
Qed.

Lemma map_add_err m t e :
  map_add m t = Err e → e = TypeError ∨ e = KeyError "id".
Proof.
  unfold map_add, py_getitem. destruct t as [| | | | |d]; simpl;
    try (intros [= <-]; by left).
  destruct (dict_get "id" d) as [id|]; simpl; [|intros [= <-]; by right].
  destruct id; simpl; try discriminate; intros [= <-]; by left.
Qed.

Lemma dict_comp_err m l e :
  dict_comp m l = Err e → e = TypeError ∨ e = KeyError "id".
Proof.
  revert m. induction l as [|t l IH]; intros m; simpl; [discriminate|].
  destruct (map_add m t) as [m'|e'] eqn:Hadd; simpl.
  - apply IH.
  - intros [= <-]. by eapply map_add_err.
Qed.

Lemma merged_task_err m nt e :
  dict_valued m →
  merged_task m nt = Err e →
  e = TypeError ∨ e = KeyError "id" ∨ e = KeyError "status".
Proof.
  intros Hm. destruct nt as [| | | | |nd]; try (intros [= <-]; by left).
  unfold merged_task, map_get; simpl.
  destruct (dict_get "id" nd) as [id|]; simpl; [|intros [= <-]; auto].
  destruct (py_hash id) as [k|e'] eqn:Hk; simpl.
  - destruct (dict_valued_default m k Hm) as [od ->]; simpl.
    destruct (dict_get "status" nd); simpl; [discriminate|intros [= <-]; auto].
  - intros [= <-]. left. destruct id; simpl in Hk; congruence.
Qed.

Lemma list_comp_err_kinds m nts e :
  dict_valued m →
  list_comp m nts = Err e →
  e = TypeError ∨ e = KeyError "id" ∨ e = KeyError "status".
Proof.
  intros Hm. induction nts as [|nt nts IH]; simpl; [discriminate|].
  destruct (merged_task m nt) as [mt|e'] eqn:Hmt; simpl.
  - destruct (list_comp m nts) as [l|e']; simpl; [discriminate|].
    intros [= <-]. by apply IH.
  - intros [= <-]. by eapply merged_task_err.
Qed.

(** X1: the merge raises nothing but a [TypeError] or a [KeyError] for
    [tasks], [id] or [status]; the [.get] calls never meet a receiver that
    is not a dict. *)
Theorem merge_error_kinds old new e :
  merge old new = Err e →
  e = TypeError ∨ e = KeyError "tasks" ∨ e = KeyError "id" ∨ e = KeyError "status".
Proof.
  unfold merge.
  destruct (existing_tasks_map old) as [m|e'] eqn:Hm; simpl.
  - pose proof (existing_tasks_map_dict_valued _ _ Hm) as Hdv.
    unfold merged_tasks.
    destruct (tasks_of new) as [nts|e'] eqn:Hnts; simpl.
    + destruct (list_comp m nts) as [l|e2] eqn:Hl; simpl; [discriminate|].
      intros [= <-].
      destruct (list_comp_err_kinds _ _ _ Hdv Hl) as [->|[->| ->]]; auto.
    + intros [= <-]. destruct (tasks_of_err _ _ Hnts) as [->| ->]; auto.
  - intros [= <-]. unfold existing_tasks_map in Hm.
    destruct (tasks_of old) as [ots|e2] eqn:Hots; simpl in Hm.
    + destruct (dict_comp_err _ _ _ Hm) as [->| ->]; auto.
    + injection Hm as <-. destruct (tasks_of_err _ _ Hots) as [->| ->]; auto.
Qed.

Lemma merge_error_kinds_witness :
  KeyError "status" = TypeError ∨ KeyError "status" = KeyError "tasks" ∨
  KeyError "status" = KeyError "id" ∨ KeyError "status" = KeyError "status".
Proof.
  apply (merge_error_kinds (collection [bare_old_1]) (collection [statusless_new_1])).
  vm_compute. reflexivity.
Defined.

(** ** When the merge succeeds *)

(** X2: the merge returns a result exactly when both documents yield a task
    sequence, every old task has a hashable [id], and every new task has a
    hashable [id] and a [status]. *)
Theorem merge_succeeds_iff old new :
  (∃ out, merge old new = Ok out) ↔
  ∃ ots nts,
    tasks_of old = Ok ots ∧ tasks_of new = Ok nts ∧
    Forall (λ t, is_Some (task_key t)) ots ∧
    Forall (λ t, is_Some (task_key t) ∧ is_Some (field "status" t)) nts.
Proof.
  split.
  - intros [out Hmerge].
    destruct (merge_inv _ _ _ Hmerge) as (m & nts & l & Hm & Hnts & Hall & _).
    destruct (existing_tasks_map_inv _ _ Hm) as (ots & Hots & Hcomp).
    exists ots, nts. split; [done|]. split; [done|]. split.
    + by eapply dict_comp_keys.
    + eapply list_comp_ok_inv. by apply list_comp_Forall2.
  - intros (ots & nts & Hots & Hnts & Hold & Hnew).
    destruct (merge_total _ _ _ _ Hots Hnts Hold Hnew) as [l Hl]. eauto.
Qed.

(** X3: every task of a merge result is a dict with a hashable [id], a
    [status] and a [subtasks]. *)
Theorem merged_tasks_complete old new out :
  merge old new = Ok out →
  ∃ l, out = collection l ∧
       Forall (λ mt, is_dict mt ∧ is_Some (task_key mt) ∧
                     is_Some (field "status" mt) ∧
                     is_Some (field "subtasks" mt)) l.
Proof.
  intros (m & nts & l & _ & _ & Hall & ->)%merge_inv.
  exists l. split; [done|].
  induction Hall as [|nt mt nts l Hok _ IH]; constructor; [|done].
  destruct (merged_task_id _ _ _ Hok) as (_ & Hkey & Hsome).
  rewrite <- Hkey in Hsome.
  apply merged_task_inv in Hok as (nd & id & k & od & ns & -> & _ & _ & _ & _ & ->).
  split; [done|]. split; [done|]. simpl.
  rewrite status_merged, subtasks_merged. eauto.
Qed.

Lemma merged_tasks_complete_witness :
  ∃ l, example_merged = collection l ∧
       Forall (λ mt, is_dict mt ∧ is_Some (task_key mt) ∧
                     is_Some (field "status" mt) ∧
                     is_Some (field "subtasks" mt)) l.
Proof.
  apply (merged_tasks_complete example_old example_new).
  vm_compute. reflexivity.
Defined.

(** X4: a merge result can be merged again as the old collection: merging it
    with the same new collection succeeds. *)
Theorem merge_result_reusable old new out :
  merge old new = Ok out → ∃ out', merge out new = Ok out'.
Proof.
  intros Hmerge.
  destruct (merge_inv _ _ _ Hmerge) as (m & nts & l & _ & Hnts & Hall & ->).
  assert (Hkeys : Forall (λ t, is_Some (task_key t)) l).
  { clear -Hall. induction Hall as [|nt mt nts l Hok _ IH]; constructor; [|done].
    destruct (merged_task_id _ _ _ Hok) as (_ & -> & ?). done. }
  apply list_comp_Forall2, list_comp_ok_inv in Hall.
  destruct (merge_total (collection l) new l nts (tasks_of_collection l) Hnts Hkeys Hall)
    as [l' Hl']. eauto.
Qed.

Lemma merge_result_reusable_witness :
  ∃ out', merge (collection [twin_a_merged; twin_b_merged])
                (collection [twin_a; twin_b]) = Ok out'.
Proof.
  apply (merge_result_reusable (collection []) (collection [twin_a; twin_b])).
  vm_compute. reflexivity.
Defined.

(** ** The fields of a merged task *)

Lemma dict_get_None_names k d : dict_get k d = None ↔ k ∉ d.*1.
Proof.
  induction d as [|[k' v] d IH]; simpl.
  - split; [intros _; apply not_elem_of_nil|done].
  - rewrite not_elem_of_cons. destruct (decide (k' = k)) as [->|Hne].
    + split; [discriminate|]. by intros [? _].
    + rewrite IH. split; [|by intros [_ ?]]. intros ?; split; [congruence|done].
Qed.

Lemma dict_set_names k v d :
  (dict_set k v d).*1 = if decide (k ∈ d.*1) then d.*1 else d.*1 ++ [k].
Proof.
  induction d as [|[k' v'] d IH].
  - destruct (decide (k ∈ ([] : dict).*1)) as [Hin|_]; [|done].
    by apply not_elem_of_nil in Hin.
  - cbn [dict_set]. destruct (decide (k' = k)) as [->|Hne].
    + rewrite decide_True; [done|by left].
    + rewrite !fmap_cons, IH. cbn [fst].
      destruct (decide (k ∈ d.*1)) as [Hin|Hnin].
      * rewrite decide_True; [done|by right].
      * rewrite decide_False; [done|]. rewrite not_elem_of_cons. split; congruence.
Qed.

Lemma dict_set_names_NoDup k v d : NoDup d.*1 → NoDup (dict_set k v d).*1.
Proof.
  intros Hd. rewrite dict_set_names. case_decide; [done|].
  apply NoDup_app. split; [done|]. split; [|apply NoDup_singleton].
  intros x Hx ->%list_elem_of_singleton. done.
Qed.

(** X5: a merged task has the fields of the new task in the same order, with
    [subtasks] added last when the new task has none; no field name is
    repeated if none was. *)
Theorem merged_field_names old new out nts :
  merge old new = Ok out →
  tasks_of new = Ok nts →
  ∃ l, out = collection l ∧
       Forall2 (λ nt mt,
                  field_names mt
                    = (if decide ("subtasks" ∈ field_names nt) then field_names nt
                       else field_names nt ++ ["subtasks"]) ∧
                  (NoDup (field_names nt) → NoDup (field_names mt))) nts l.
Proof.
  intros Hmerge Hnts.
  destruct (merge_inv _ _ _ Hmerge) as (m & nts' & l & _ & Hnts' & Hall & ->).
  assert (nts' = nts) as -> by congruence.
  exists l. split; [done|].
  eapply Forall2_impl; [exact Hall|]. intros nt mt Hok. simpl in Hok.
  apply merged_task_inv in Hok as (nd & id & k & od & ns & -> & _ & _ & _ & Hns & ->).
  simpl. split.
  - rewrite !dict_set_names.
    assert (Hin : "status" ∈ nd.*1).
    { destruct (decide ("status" ∈ nd.*1)) as [|Hnin]; [done|].
      apply dict_get_None_names in Hnin. congruence. }
    by rewrite (decide_True _ _ Hin).
  - intros Hnd. by do 2 apply dict_set_names_NoDup.
Qed.

Lemma merged_field_names_witness :
  ∃ l, example_merged = collection l ∧
       Forall2 (λ nt mt,
                  field_names mt
                    = (if decide ("subtasks" ∈ field_names nt) then field_names nt
                       else field_names nt ++ ["subtasks"]) ∧
                  (NoDup (field_names nt) → NoDup (field_names mt)))
               [example_new_1; example_new_3] l.
Proof.
  apply (merged_field_names example_old example_new).
  - vm_compute. reflexivity.
  - reflexivity.
Defined.

(** ** What the result depends on *)

(** One new task looks at the old dict only under its own key. *)
Lemma merged_task_ext m m' nt :
  (∀ k, task_key nt = Some k → m !! k = m' !! k) →
  merged_task m nt = merged_task m' nt.
Proof.
  intros Hagree. destruct nt as [| | | | |nd]; try done.
  unfold merged_task, map_get; simpl.
  destruct (dict_get "id" nd) as [id|] eqn:Hid; simpl; [|done].
  destruct (py_hash id) as [k|] eqn:Hk; simpl; [|done].
  by rewrite (Hagree k (task_key_obj _ _ _ Hid Hk)).
Qed.

Lemma list_comp_ext m m' nts :
  (∀ nt k, nt ∈ nts → task_key nt = Some k → m !! k = m' !! k) →
  list_comp m nts = list_comp m' nts.
Proof.
  induction nts as [|nt nts IH]; intros Hagree; simpl; [done|].
  rewrite (merged_task_ext m m' nt).
  - rewrite IH; [done|]. intros nt' k Hin. apply Hagree. by right.
  - intros k. apply Hagree. by left.
Qed.

(** Leaving out tasks filed under other keys does not change what a key
    holds. *)
Lemma dict_comp_filter (P : json → Prop) `{!∀ t, Decision (P t)} l k :
  (∀ t, t ∈ l → task_key t = Some k → P t) →
  ∀ m0 m0' m m',
    m0 !! k = m0' !! k →
    dict_comp m0 l = Ok m → dict_comp m0' (filter P l) = Ok m' →
    m !! k = m' !! k.
Proof.
  induction l as [|t l IH]; intros Hkeep m0 m0' m m' H0; simpl.
  - by intros [= <-] [= <-].
  - destruct (map_add m0 t) as [m1|] eqn:Hadd; [simpl|discriminate].
    apply map_add_inv in Hadd as (kt & Hkt & ->).
    assert (Hrest : ∀ t', t' ∈ l → task_key t' = Some k → P t').
    { intros t' Hin. apply Hkeep. by right. }
    rewrite filter_cons. destruct (decide (P t)) as [HP|HnP]; simpl.
    + rewrite (map_add_ok _ _ _ Hkt); simpl.
      apply (IH Hrest). destruct (decide (kt = k)) as [->|Hne].
      * by rewrite !lookup_insert_eq.
      * by rewrite !lookup_insert_ne.
    + apply (IH Hrest). rewrite lookup_insert_ne; [done|].
      intros ->. apply HnP, Hkeep; [by left|done].
Qed.

(** X6: old tasks whose [id] no new task has play no part: dropping them
    from the old collection beforehand gives the same result. *)
Theorem old_only_tasks_ignored old new ots nts :
  tasks_of old = Ok ots → tasks_of new = Ok nts →
  Forall (λ t, is_Some (task_key t)) ots →
  merge (collection (filter (λ t, task_key t ∈ task_key <$> nts) ots)) new
    = merge old new.
Proof.
  intros Hots Hnts Hkeys.
  set (P := λ t : json, task_key t ∈ task_key <$> nts).
  destruct (dict_comp_total ∅ ots Hkeys) as [m Hm].
  destruct (dict_comp_total ∅ (filter P ots)) as [m' Hm'].
  { apply Forall_forall. intros t [_ Hin]%list_elem_of_filter.
    rewrite Forall_forall in Hkeys. by apply Hkeys. }
  unfold merge, existing_tasks_map, merged_tasks.
  rewrite tasks_of_collection, Hots; simpl. rewrite Hm, Hm'; simpl.
  rewrite Hnts; simpl. f_equal.
  apply list_comp_ext. intros nt k Hin Hk. symmetry.
  apply (dict_comp_filter P ots k) with (m0 := ∅) (m0' := ∅); try done.
  intros t _ Ht. unfold P. rewrite Ht, <- Hk. by apply list_elem_of_fmap_2.
Qed.

Lemma old_only_tasks_ignored_witness :
  merge (collection (filter (λ t, task_key t ∈ task_key <$> [example_new_1; example_new_3])
                            [example_old_1; example_old_2])) example_new
    = merge example_old example_new.
Proof.
  apply (old_only_tasks_ignored example_old example_new).
  - reflexivity.
  - reflexivity.
  - repeat econstructor.
Defined.

(** X7: with no old task, the result is the new collection with an empty
    [subtasks] added to the tasks that have none. *)
Theorem merge_without_old_tasks old new nts :
  tasks_of old = Ok [] → tasks_of new = Ok nts →
  Forall (λ t, is_Some (task_key t) ∧ is_Some (field "status" t)) nts →
  merge old new = Ok (collection (with_subtasks <$> nts)).
Proof.
  intros Hots Hnts Hnew.
  unfold merge, existing_tasks_map, merged_tasks.
  rewrite Hots; simpl. rewrite Hnts; simpl.
  assert (Hl : list_comp ∅ nts = Ok (with_subtasks <$> nts)).
  { clear Hnts. induction Hnew as [|nt nts [[k Hk] [ns Hns]] _ IH]; simpl; [done|].
    apply task_key_inv in Hk as (nd & id & -> & Hid & Hk). simpl in Hns.
    rewrite (merged_task_ok ∅ nd id k [] ns Hid Hk); [|by rewrite lookup_empty|done].
    simpl. rewrite IH; simpl. by rewrite (dict_set_id _ _ _ Hns). }
  by rewrite Hl.
Qed.

Lemma merge_without_old_tasks_witness :
  merge (collection []) example_new
    = Ok (collection (with_subtasks <$> [example_new_1; example_new_3])).
Proof.
  apply (merge_without_old_tasks (collection []) example_new).
  - reflexivity.
  - reflexivity.
  - repeat econstructor.
Defined.

(** ** The first offending task *)

Lemma py_hash_err v e : py_hash v = Err e → e = TypeError ∧ hashable v = false.
Proof. destruct v; simpl; try discriminate; by intros [= <-]. Qed.

Lemma py_hash_ok v k : py_hash v = Ok k → hashable v = true.
Proof. destruct v; simpl; try discriminate; done. Qed.

(** X8: the first old task that cannot be filed decides the exception,
    whatever the new collection is: [KeyError] for a dict without [id],
    [TypeError] for an entry that is not a dict or whose [id] is a list or a
    dict. *)
Theorem first_bad_old_task old new pre t post :
  tasks_of old = Ok (pre ++ t :: post) →
  Forall (λ t', is_Some (task_key t')) pre →
  task_key t = None →
  merge old new =
    Err (match field "id" t with
         | Some _ => TypeError
         | None => if is_dict t then KeyError "id" else TypeError
         end).
Proof.
  intros Hots Hpre Hbad.
  destruct (dict_comp_total ∅ pre Hpre) as [m1 Hm1].
  unfold merge, existing_tasks_map. rewrite Hots; simpl.
  rewrite dict_comp_app, Hm1; simpl.
  destruct t as [| | | | |d]; try done.
  unfold task_key, map_add in *; simpl in *.
  destruct (dict_get "id" d) as [id|]; simpl; [|done].
  destruct (py_hash id) as [k|e] eqn:Hk; [done|].
  by apply py_hash_err in Hk as [-> _].
Qed.

Lemma first_bad_old_task_witness :
  merge (collection [example_old_1; nameless_task; JNum 7]) example_new =
    Err (match field "id" nameless_task with
         | Some _ => TypeError
         | None => if is_dict nameless_task then KeyError "id" else TypeError
         end).
Proof.
  apply (first_bad_old_task _ example_new [example_old_1] nameless_task [JNum 7]).
  - reflexivity.
  - repeat econstructor.
  - reflexivity.
Defined.

Lemma list_comp_app m l1 l2 :
  list_comp m (l1 ++ l2) =
    let* a := list_comp m l1 in let* b := list_comp m l2 in Ok (a ++ b).
Proof.
  induction l1 as [|t l1 IH]; simpl.
  - by destruct (list_comp m l2).
  - destruct (merged_task m t) as [mt|]; simpl; [|done]. rewrite IH.
    destruct (list_comp m l1) as [a|]; simpl; [|done].
    by destruct (list_comp m l2).
Qed.

(** X9: once the old dict is built, the first new task that cannot be merged
    decides the exception, and the old tasks have no say in it: [TypeError]
    for an entry that is not a dict or whose [id] is a list or a dict,
    [KeyError] for a missing [id], and [KeyError] for a missing [status] only
    when the [id] is in order. *)
Theorem first_bad_new_task old new m pre t post :
  existing_tasks_map old = Ok m →
  tasks_of new = Ok (pre ++ t :: post) →
  Forall (λ t', is_Some (task_key t') ∧ is_Some (field "status" t')) pre →
  task_key t = None ∨ field "status" t = None →
  merge old new =
    Err (match field "id" t with
         | Some id => if hashable id then KeyError "status" else TypeError
         | None => if is_dict t then KeyError "id" else TypeError
         end).
Proof.
  intros Hm Hnts Hpre Hbad.
  pose proof (existing_tasks_map_dict_valued _ _ Hm) as Hdv.
  destruct (list_comp_total m pre Hdv Hpre) as [a Ha].
  unfold merge, merged_tasks. rewrite Hm; simpl. rewrite Hnts; simpl.
  rewrite list_comp_app, Ha; simpl.
  assert (Ht : merged_task m t =
    Err (match field "id" t with
         | Some id => if hashable id then KeyError "status" else TypeError
         | None => if is_dict t then KeyError "id" else TypeError
         end)).
  { destruct t as [| | | | |d]; try done.
    unfold task_key, merged_task, map_get in *; simpl in *.
    destruct (dict_get "id" d) as [id|]; simpl; [|done].
    destruct (py_hash id) as [k|e] eqn:Hk; simpl.
    - rewrite (py_hash_ok _ _ Hk).
      destruct (dict_valued_default m k Hdv) as [od ->]; simpl.
      destruct Hbad as [?| ->]; done.
    - by apply py_hash_err in Hk as [-> ->]. }
  by rewrite Ht.
Qed.

Lemma first_bad_new_task_witness :
  merge (collection [bare_old_1])
        (collection [example_new_1; statusless_new_1; nameless_task]) =
    Err (match field "id" statusless_new_1 with
         | Some id => if hashable id then KeyError "status" else TypeError
         | None => if is_dict statusless_new_1 then KeyError "id" else TypeError
         end).
Proof.
  apply (first_bad_new_task (collection [bare_old_1]) _ {[KInt 1 := bare_old_1]}
           [example_new_1] statusless_new_1 [nameless_task]).
  - vm_compute. reflexivity.
  - reflexivity.
  - repeat econstructor.
  - right. reflexivity.
Defined.

(** ** The shape of a collection *)

(** X10: an old document whose [tasks] is neither an array nor an empty
    object or string is refused with [TypeError], whatever the new
    collection is. *)
Theorem old_tasks_must_be_iterable old new ts :
  py_getitem old "tasks" = Ok ts →
  ¬ iterable_tasks ts →
  merge old new = Err TypeError.
Proof.
  intros Hts Hbad. unfold merge, existing_tasks_map, tasks_of. rewrite Hts; simpl.
  destruct ts as [| | |s|l|d]; try done.
  - destruct s; [done|]. reflexivity.
  - destruct d as [|[k v] d]; [done|]. reflexivity.
Qed.

Lemma old_tasks_must_be_iterable_witness :
  merge (JObj [("tasks", JObj [("1", example_old_1)])]) example_new = Err TypeError.
Proof.
  apply (old_tasks_must_be_iterable _ example_new (JObj [("1", example_old_1)])).
  - reflexivity.
  - simpl. intros [].
Defined.

(** X11: once the old dict is built, a new document whose [tasks] is neither
    an array nor an empty object or string is refused with [TypeError]. *)
Theorem new_tasks_must_be_iterable old new m ts :
  existing_tasks_map old = Ok m →
  py_getitem new "tasks" = Ok ts →
  ¬ iterable_tasks ts →
  merge old new = Err TypeError.
Proof.
  intros Hm Hts Hbad. unfold merge, merged_tasks, tasks_of.
  rewrite Hm; simpl. rewrite Hts; simpl.
  destruct ts as [| | |s|l|d]; try done.
  - destruct s; [done|]. reflexivity.
  - destruct d as [|[k v] d]; [done|]. reflexivity.
Qed.

Lemma new_tasks_must_be_iterable_witness :
  merge example_old (JObj [("tasks", JStr "none")]) = Err TypeError.
Proof.
  apply (new_tasks_must_be_iterable example_old _
           {[KInt 1 := example_old_1; KInt 2 := example_old_2]} (JStr "none")).
  - vm_compute. reflexivity.
  - reflexivity.
  - simpl. intros [].
Defined.

(** ** Running the script *)

Lemma script_inv w w' u :
  script w = (w', Ok u) →
  ∃ old new out,
    files w !! "tasks/tasks.json" = Some (Json old) ∧
    files w !! "tasks/tasks.json.new" = Some (Json new) ∧
    merge old new = Ok out ∧
    w' = World (<["tasks/tasks.json.merged" := Json out]> (files w))
               (stdout w ++ ["Tasks merged successfully!"]).
Proof.
  unfold script, io_bind, load, lift, dump, print.
  destruct (files w !! "tasks/tasks.json") as [[old|]|] eqn:Hold; try discriminate.
  destruct (files w !! "tasks/tasks.json.new") as [[new|]|] eqn:Hnew; try discriminate.
  destruct (existing_tasks_map old) as [m|] eqn:Hm; [|discriminate].
  destruct (merged_tasks m new) as [out|] eqn:Hout; [|discriminate].
  intros [= <- _]. exists old, new, out.
  split; [done|]. split; [done|]. split; [|done].
  unfold merge. by rewrite Hm.
Qed.

(** X12: when the script stops on an exception, of whatever kind, no file
    has been written and nothing has been printed. *)
Theorem script_failure_writes_nothing w w' e :
  script w = (w', Err e) → w' = w.
Proof.
  unfold script, io_bind, load, lift, dump, print.
  destruct (files w !! "tasks/tasks.json") as [[old|]|]; try by intros [= <- _].
  destruct (files w !! "tasks/tasks.json.new") as [[new|]|]; try by intros [= <- _].
  destruct (existing_tasks_map old) as [m|]; [|by intros [= <- _]].
  destruct (merged_tasks m new) as [out|]; [discriminate|by intros [= <- _]].
Qed.

Lemma script_failure_writes_nothing_witness :
  world_of (collection [nameless_task]) example_new
    = world_of (collection [nameless_task]) example_new.
Proof.
  apply (script_failure_writes_nothing
           (world_of (collection [nameless_task]) example_new) _ (KeyError "id")).
  vm_compute. reflexivity.
Defined.

(** X13: when the script completes, both input files held JSON documents
    whose merge succeeded; the result is in [tasks/tasks.json.merged], every
    other file, the two inputs included, is as it was, and the message was
    printed once, after what was on the console. *)
Theorem script_success_effects w w' u :
  script w = (w', Ok u) →
  ∃ old new out,
    files w !! "tasks/tasks.json" = Some (Json old) ∧
    files w !! "tasks/tasks.json.new" = Some (Json new) ∧
    merge old new = Ok out ∧
    files w' !! "tasks/tasks.json.merged" = Some (Json out) ∧
    (∀ path, path ≠ "tasks/tasks.json.merged" → files w' !! path = files w !! path) ∧
    stdout w' = stdout w ++ ["Tasks merged successfully!"].
Proof.
  intros (old & new & out & Hold & Hnew & Hmerge & ->)%script_inv.
  exists old, new, out. simpl. repeat split; try done.
  - apply lookup_insert_eq.
  - intros path Hne. by apply lookup_insert_ne.
Qed.

Lemma script_success_effects_witness :
  ∃ old new out,
    files (world_of example_old example_new) !! "tasks/tasks.json" = Some (Json old) ∧
    files (world_of example_old example_new) !! "tasks/tasks.json.new" = Some (Json new) ∧
    merge old new = Ok out ∧
    files example_world_after !! "tasks/tasks.json.merged" = Some (Json out) ∧
    (∀ path, path ≠ "tasks/tasks.json.merged" →
       files example_world_after !! path
       = files (world_of example_old example_new) !! path) ∧
    stdout example_world_after
      = stdout (world_of example_old example_new) ++ ["Tasks merged successfully!"].
Proof.
  apply (script_success_effects (world_of example_old example_new)
           example_world_after tt).
  vm_compute. reflexivity.
Defined.

(** X14: running the script again after a successful run succeeds, leaves
    every file as the first run left it and prints the message once more. *)
Theorem script_rerun w w1 u :
  script w = (w1, Ok u) →
  script w1 = (World (files w1) (stdout w1 ++ ["Tasks merged successfully!"]), Ok tt).
Proof.
  intros (old & new & out & Hold & Hnew & Hmerge & ->)%script_inv.
  rewrite (script_succeeds _ old new out); simpl.
  - by rewrite insert_insert_eq.
  - by rewrite lookup_insert_ne.
  - by rewrite lookup_insert_ne.
  - done.
Qed.

Lemma script_rerun_witness :
  script example_world_after
  = (World (files example_world_after)
           (stdout example_world_after ++ ["Tasks merged successfully!"]), Ok tt).
Proof.
  apply (script_rerun (world_of example_old example_new) example_world_after tt).
  vm_compute. reflexivity.
Defined.



(** ** Composition *)

(** X16: the new tasks are merged one by one: the result for two sequences
    of new tasks put end to end is the two results put end to end. *)
Theorem merge_concatenates old a b la lb :
  merge old (collection a) = Ok (collection la) →
  merge old (collection b) = Ok (collection lb) →
  merge old (collection (a ++ b)) = Ok (collection (la ++ lb)).
Proof.
  intros (m & a' & la' & Hm & [= <-] & Ha & [= <-])%merge_inv
         (m' & b' & lb' & Hm' & [= <-] & Hb & [= <-])%merge_inv.
  assert (m' = m) as -> by congruence.
  apply list_comp_Forall2 in Ha, Hb.
  unfold merge, merged_tasks. rewrite Hm; simpl.
  by rewrite list_comp_app, Ha, Hb.
Qed.

Lemma merge_concatenates_witness :
  merge example_old (collection ([example_new_1] ++ [example_new_3]))
    = Ok (collection ([example_merged_1] ++ [example_merged_3])).
Proof.
  apply (merge_concatenates example_old [example_new_1] [example_new_3]).
  - vm_compute. reflexivity.
  - vm_compute. reflexivity.
Defined.

(** With pairwise distinct keys, the dict holds a task under a key exactly
    when the task is in the sequence and has that key. *)
Lemma dict_comp_nodup_iff l m k t :
  dict_comp ∅ l = Ok m →
  NoDup (task_key <$> l) →
  m !! k = Some t ↔ t ∈ l ∧ task_key t = Some k.
Proof.
  intros Hcomp Hnodup. split.
  - intros Hlook. destruct (dict_comp_entries _ _ _ _ _ Hcomp Hlook) as [Hin|?]; [|done].
    by rewrite lookup_empty in Hin.
  - intros [[i Hi]%list_elem_of_lookup Hk]. by eapply dict_comp_nodup.
Qed.

(** X17: when the old tasks have pairwise distinct [id]s, their order does
    not matter. *)
Theorem old_order_irrelevant ots ots' new :
  ots ≡ₚ ots' →
  Forall (λ t, is_Some (task_key t)) ots →
  NoDup (task_key <$> ots) →
  merge (collection ots') new = merge (collection ots) new.
Proof.
  intros Hperm Hkeys Hnodup.
  assert (Hkeys' : Forall (λ t, is_Some (task_key t)) ots') by by rewrite <- Hperm.
  assert (Hnodup' : NoDup (task_key <$> ots')) by by rewrite <- Hperm.
  destruct (dict_comp_total ∅ ots Hkeys) as [m Hm].
  destruct (dict_comp_total ∅ ots' Hkeys') as [m' Hm'].
  assert (Heq : m' = m).
  { apply map_eq. intros k. apply option_eq. intros t.
    rewrite (dict_comp_nodup_iff _ _ k t Hm Hnodup),
            (dict_comp_nodup_iff _ _ k t Hm' Hnodup').
    by rewrite Hperm. }
  unfold merge, existing_tasks_map.
  rewrite !tasks_of_collection; simpl. by rewrite Hm, Hm', Heq.
Qed.

Lemma old_order_irrelevant_witness :
  merge (collection [example_old_2; example_old_1]) example_new
    = merge (collection [example_old_1; example_old_2]) example_new.
Proof.
  apply (old_order_irrelevant [example_old_1; example_old_2]
           [example_old_2; example_old_1] example_new).
  - apply perm_swap.
  - repeat econstructor.
  - apply (bool_decide_unpack _). vm_compute. exact I.
Defined.

(** X18: of each document only the task sequence is read, and the result
    has the single field [tasks]: whatever else the documents hold at top
    level is neither used nor copied. *)
Theorem merge_reads_only_tasks old new ots nts :
  tasks_of old = Ok ots → tasks_of new = Ok nts →
  merge old new = merge (collection ots) (collection nts) ∧
  ∀ out, merge old new = Ok out → field_names out = ["tasks"].
Proof.
  intros Hots Hnts. split.
  - unfold merge, existing_tasks_map, merged_tasks.
    by rewrite !tasks_of_collection, Hots, Hnts.
  - by intros out (m & nts' & l & _ & _ & _ & ->)%merge_inv.
Qed.

Lemma merge_reads_only_tasks_witness :
  merge (JObj [("meta", JStr "v1"); ("tasks", JArr [example_old_1; example_old_2])])
        (JObj [("tasks", JArr [example_new_1; example_new_3]); ("meta", JStr "v2")])
    = merge (collection [example_old_1; example_old_2])
            (collection [example_new_1; example_new_3]) ∧
  ∀ out,
    merge (JObj [("meta", JStr "v1"); ("tasks", JArr [example_old_1; example_old_2])])
          (JObj [("tasks", JArr [example_new_1; example_new_3]); ("meta", JStr "v2")])
      = Ok out →
    field_names out = ["tasks"].
Proof.
  apply (merge_reads_only_tasks _ _ [example_old_1; example_old_2]
           [example_new_1; example_new_3]).
  - reflexivity.
  - reflexivity.
Defined.
